(** * js-part-0: value inspection helpers of [index.js]

    A shallow embedding of the helper functions of [src/index.js] and of the
    properties its specification states about them.  The source holds two
    renditions of the same helpers: the plain JavaScript one (first part of
    the file) and the TypeScript one (second part).  They agree on every
    function except [areEqual], which therefore lives in two modules,
    [Js] and [Ts]. *)

From Stdlib Require Import ZArith List String Ascii Bool Lia Sorted Permutation.
From Stdlib Require Import Floats.SpecFloat.
From Stdlib Require Import DecimalString.
From stdpp Require Import base decidable gmap strings list.

Set Warnings "-register-all,-clear-no-such-hyp".

Local Open Scope nat_scope.
Local Open Scope string_scope.

(** ** Runtime values *)

(** Built-in constructors that the code mentions on the right of
    [instanceof], and the ones whose prototype the sample values inherit
    from.  A prototype chain is recorded as the list of constructors [C]
    such that [C.prototype] is on the chain; [CUser] stands for any
    prototype object made by the program itself. *)
Inductive class :=
| CObject | CFunction | CArray | CDate | CRegExp
| CSet | CMap | CWeakSet | CWeakMap | CPromise
| CString | CNumber | CBoolean
| CUser (id : nat).

#[global] Instance class_eq_dec : EqDecision class.
Proof. solve_decision. Defined.

(** Internal data slot of an object ([[StringData]] and the like). *)
Inductive internal :=
| NoData
| BooleanData (b : bool)
| NumberData (x : spec_float)
| StringData (s : string).

(** An object other than an array.  [addr] is its identity, the only thing
    [===] looks at; [callable] says whether it has a [[Call]] method, which
    decides between the [typeof] answers ['function'] and ['object']. *)
Record object := Object {
  addr : nat;
  callable : bool;
  slot : internal;
  chain : list class;
}.

(** A JavaScript value.  Numbers are IEEE-754 data ([spec_float]): zeros,
    infinities, NaN and finite numbers.  An array carries its identity, its
    prototype chain and its elements; a hole and [undefined] read the same
    through [a[i]].  Values are finite trees: an array that contains itself
    and Proxy exotic objects are outside the model. *)
Inductive value :=
| VUndefined
| VNull
| VBoolean (b : bool)
| VNumber (x : spec_float)
| VBigInt (z : Z)
| VString (s : string)
| VSymbol (id : nat) (description : string)
| VObject (o : object)
| VArray (a : nat) (protos : list class) (elems : list value).

(** The global constants [Infinity] and [NaN], and unary minus on the
    former. *)
Definition Infinity : value := VNumber (S754_infinity false).
Definition NegInfinity : value := VNumber (S754_infinity true).
Definition NaN : value := VNumber S754_nan.

(** A numeric literal with an integer value, rounded to binary64. *)
Definition num (z : Z) : value :=
  VNumber (binary_normalize 53 1024 z 0 false).

(** ** Host operators *)

(** [typeof v] *)
Definition typeof (v : value) : string :=
  match v with
  | VUndefined => "undefined"
  | VNull => "object"
  | VBoolean _ => "boolean"
  | VNumber _ => "number"
  | VBigInt _ => "bigint"
  | VString _ => "string"
  | VSymbol _ _ => "symbol"
  | VObject o => if callable o then "function" else "object"
  | VArray _ _ _ => "object"
  end.

(** [a === b]: no conversion; numbers by IEEE equality (NaN differs from
    itself, the two zeros are equal), objects and symbols by identity. *)
Definition strict_eq (a b : value) : bool :=
  match a, b with
  | VUndefined, VUndefined => true
  | VNull, VNull => true
  | VBoolean x, VBoolean y => Bool.eqb x y
  | VNumber x, VNumber y => SFeqb x y
  | VBigInt x, VBigInt y => (x =? y)%Z
  | VString x, VString y => (x =? y)%string
  | VSymbol i _, VSymbol j _ => (i =? j)%nat
  | VObject o, VObject p => (addr o =? addr p)%nat
  | VArray i _ _, VArray j _ _ => (i =? j)%nat
  | _, _ => false
  end.

(** [Number.isNaN(v)]: true for the number NaN only. *)
Definition Number_isNaN (v : value) : bool :=
  match v with
  | VNumber S754_nan => true
  | _ => false
  end.

(** [Array.isArray(v)] *)
Definition Array_isArray (v : value) : bool :=
  match v with
  | VArray _ _ _ => true
  | _ => false
  end.

Definition prototype_chain (v : value) : list class :=
  match v with
  | VObject o => chain o
  | VArray _ protos _ => protos
  | _ => []
  end.

(** [v instanceof C] for a built-in constructor [C]: [C.prototype] is on the
    prototype chain of [v]; false for every primitive. *)
Definition instanceof (v : value) (C : class) : bool :=
  bool_decide (C ∈ prototype_chain v).

(** ** Functions of the source *)

(** [getType]: lines 33-35 and 319-321. *)
Definition getType (value : value) : string := typeof value.

(** [getTypesOfItems]: lines 38-40 and 324-326. *)
Definition getTypesOfItems (arr : list value) : list string :=
  List.map getType arr.

(** [getRealType]: lines 57-82 and 343-406, one [if] per source line. *)
Definition getRealType (value : value) : string :=
  if typeof value =? "boolean" then "boolean"
  else if typeof value =? "string" then "string"
  else if typeof value =? "undefined" then "undefined"
  else if strict_eq value VNull then "null"
  else if strict_eq value Infinity || strict_eq value NegInfinity then "Infinity"
  else if Number_isNaN value then "NaN"
  else if typeof value =? "number" then "number"
  else if typeof value =? "bigint" then "bigint"
  else if Array_isArray value then "array"
  else if instanceof value CFunction then "function"
  else if instanceof value CDate then "date"
  else if instanceof value CRegExp then "regexp"
  else if instanceof value CSet then "set"
  else if instanceof value CMap then "map"
  else if instanceof value CWeakSet then "weakset"
  else if instanceof value CWeakMap then "weakmap"
  else if typeof value =? "symbol" then "symbol"
  else if instanceof value CPromise then "promise"
  else if typeof value =? "object" then "object"
  else "unknown".

(** [getRealTypesOfItems]: lines 84-86 and 408-410. *)
Definition getRealTypesOfItems (arr : list value) : list string :=
  List.map getRealType arr.

(** [allItemsHaveTheSameType]: lines 43-47 and 329-333.  [types] is the
    [Set] that [forEach] fills; only its size is read. *)
Definition allItemsHaveTheSameType (arr : list value) : bool :=
  let types : gset string :=
    fold_left (fun types value => types ∪ {[ typeof value ]}) arr ∅ in
  (size types =? 1)%nat.

(** [everyItemHasAUniqueRealType]: lines 90-94 and 414-418. *)
Definition everyItemHasAUniqueRealType (arr : list value) : bool :=
  let types : gset string :=
    fold_left (fun types value => types ∪ {[ getRealType value ]}) arr ∅ in
  (length arr =? size types)%nat.

(** *** The counting object of [countRealTypes]

    [map] is an object used as a dictionary from tags to counts.  Its own
    properties are kept in creation order, which is the order
    [Object.entries] lists them in. *)
Definition dict := list (string * nat).

(** [map[key]]: [None] stands for [undefined]. *)
Fixpoint get (map : dict) (key : string) : option nat :=
  match map with
  | [] => None
  | (k, n) :: rest => if k =? key then Some n else get rest key
  end.

(** [map[key] = n]: overwrite in place, or create the property last. *)
Fixpoint put (map : dict) (key : string) (n : nat) : dict :=
  match map with
  | [] => [(key, n)]
  | (k, m) :: rest =>
      if k =? key then (k, n) :: rest else (k, m) :: put rest key n
  end.

(** [!map[key]]: [undefined] and [0] are falsy. *)
Definition not_ (x : option nat) : bool :=
  match x with
  | None | Some 0 => true
  | Some (S _) => false
  end.

(** The body of the [forEach] callback, lines 103-105 and 427-431.  The
    increment reads the property that the line before has made sure
    exists. *)
Definition count_one (map : dict) (value : value) : dict :=
  let type := getRealType value in
  let map := if not_ (get map type) then put map type 0 else map in
  match get map type with
  | Some n => put map type (n + 1)
  | None => map
  end.

(** [Array.prototype.sort(compare)]: a stable sort; an insertion sort
    stands for the host's algorithm.  [compare a b <= 0] keeps [a] in front
    of [b]. *)
Fixpoint insert_by {A} (compare : A -> A -> Z) (x : A) (l : list A) : list A :=
  match l with
  | [] => [x]
  | y :: l' =>
      if (compare x y <=? 0)%Z then x :: y :: l'
      else y :: insert_by compare x l'
  end.

Definition sort {A} (compare : A -> A -> Z) (l : list A) : list A :=
  fold_right (insert_by compare) [] l.

(** [String.prototype.toLowerCase] on ASCII letters. *)
Definition toLowerCase_ascii (c : ascii) : ascii :=
  let n := N_of_ascii c in
  if ((65 <=? n) && (n <=? 90))%N then ascii_of_N (n + 32) else c.

Fixpoint toLowerCase (s : string) : string :=
  match s with
  | EmptyString => EmptyString
  | String c s' => String (toLowerCase_ascii c) (toLowerCase s')
  end.

(** [s.localeCompare(t)] is the host's collation, not the code-unit order
    of [<].  On words of ASCII letters, which is all the tags are, it is
    alphabetical order without regard to case, and two words that differ in
    case only have the lower-case letter first. *)
Definition localeCompare (s t : string) : Z :=
  match String.compare (toLowerCase s) (toLowerCase t) with
  | Lt => (-1)%Z
  | Gt => 1%Z
  | Eq =>
      match String.compare t s with
      | Lt => (-1)%Z
      | Gt => 1%Z
      | Eq => 0%Z
      end
  end.

(** [countRealTypes]: lines 99-111 and 423-435. *)
Definition countRealTypes (arr : list value) : list (string * nat) :=
  let map : dict := fold_left count_one arr [] in
  sort (fun a b => localeCompare (fst a) (fst b)) map.

(** ** [areEqual] *)

Module Ts.

(** [areEqual] of the TypeScript part, lines 285-301.  The inner [fix] is
    the [for] loop over the indices, run once the lengths are known to
    agree. *)
Fixpoint areEqual (a b : value) : bool :=
  match a, b with
  | VArray _ _ xs, VArray _ _ ys =>
      if negb (length xs =? length ys)%nat then false
      else
        (fix loop (xs ys : list value) : bool :=
           match xs, ys with
           | x :: xs', y :: ys' =>
               if negb (areEqual x y) then false else loop xs' ys'
           | _, _ => true
           end) xs ys
  | _, _ => strict_eq a b
  end.

End Ts.

Module Js.

(** The value of a number when it is an integer. *)
Definition integer_value (x : spec_float) : option Z :=
  match x with
  | S754_zero _ => Some 0%Z
  | S754_finite s m e =>
      let magnitude :=
        if (0 <=? e)%Z then Some (Z.pos m * 2 ^ e)%Z
        else if (Z.pos m mod 2 ^ (- e) =? 0)%Z then Some (Z.pos m / 2 ^ (- e))%Z
        else None in
      option_map (fun z => if s then (- z)%Z else z) magnitude
  | _ => None
  end.

Definition decimal (z : Z) : string := NilZero.string_of_int (Z.to_int z).

(** [Number::toString]: NaN, the infinities, and integers below 10^21, which
    print as their decimal digits.  The digits of a fraction and the
    exponent form are not modelled ([None]). *)
Definition Number_toString (x : spec_float) : option string :=
  match x with
  | S754_nan => Some "NaN"
  | S754_infinity s => Some (if s then "-Infinity" else "Infinity")
  | _ =>
      match integer_value x with
      | Some z => if (Z.abs z <? 10 ^ 21)%Z then Some (decimal z) else None
      | None => None
      end
  end.

(** [Array.prototype.join] with the default separator, given the conversion
    of one element. *)
Definition join_with (element : value -> option string) : list value -> option string :=
  fix join (elems : list value) : option string :=
    match elems with
    | [] => Some EmptyString
    | x :: rest =>
        match rest with
        | [] => element x
        | _ :: _ =>
            match element x, join rest with
            | Some s, Some r => Some (s ++ "," ++ r)
            | _, _ => None
            end
        end
    end.

(** What [join] makes of one element: the empty string for [undefined] and
    [null], [ToString] otherwise.  A nested array is joined in turn.
    [None]: the conversion throws (a symbol) or runs the [toString] method
    of an object, which is outside the model. *)
Fixpoint element_string (v : value) : option string :=
  match v with
  | VUndefined | VNull => Some EmptyString
  | VBoolean b => Some (if b then "true" else "false")
  | VNumber x => Number_toString x
  | VBigInt z => Some (decimal z)
  | VString s => Some s
  | VSymbol _ _ => None
  | VObject _ => None
  | VArray _ _ elems => join_with element_string elems
  end.

(** [a.join()] *)
Definition join (elems : list value) : option string :=
  join_with element_string elems.

(** [areEqual] of the JavaScript part, lines 9-15. *)
Definition areEqual (a b : value) : option bool :=
  match a, b with
  | VArray _ _ xs, VArray _ _ ys =>
      match join xs, join ys with
      | Some s, Some t => Some (s =? t)
      | _, _ => None
      end
  | _, _ => Some (strict_eq a b)
  end.

End Js.

(** ** The rules of [getRealType] as a table

    The chain of [if (...) return ...] statements, one entry per statement
    in source order; [first_match] runs such a chain. *)
Definition rules : list ((value -> bool) * string) :=
  [ (fun value => typeof value =? "boolean", "boolean");
    (fun value => typeof value =? "string", "string");
    (fun value => typeof value =? "undefined", "undefined");
    (fun value => strict_eq value VNull, "null");
    (fun value => strict_eq value Infinity || strict_eq value NegInfinity, "Infinity");
    (fun value => Number_isNaN value, "NaN");
    (fun value => typeof value =? "number", "number");
    (fun value => typeof value =? "bigint", "bigint");
    (fun value => Array_isArray value, "array");
    (fun value => instanceof value CFunction, "function");
    (fun value => instanceof value CDate, "date");
    (fun value => instanceof value CRegExp, "regexp");
    (fun value => instanceof value CSet, "set");
    (fun value => instanceof value CMap, "map");
    (fun value => instanceof value CWeakSet, "weakset");
    (fun value => instanceof value CWeakMap, "weakmap");
    (fun value => typeof value =? "symbol", "symbol");
    (fun value => instanceof value CPromise, "promise");
    (fun value => typeof value =? "object", "object") ].

Fixpoint first_match (rs : list ((value -> bool) * string)) (otherwise : string)
    (v : value) : string :=
  match rs with
  | [] => otherwise
  | (test, tag) :: rs' => if test v then tag else first_match rs' otherwise v
  end.

(** The closed set of tags. *)
Definition tags : list string := List.map snd rules ++ ["unknown"].

(** ** Sample values *)

Definition array_literal (a : nat) (elems : list value) : value :=
  VArray a [CArray; CObject] elems.
Definition object_literal (a : nat) : value :=
  VObject (Object a false NoData [CObject]).


(** ** The test harness

    What the harness does is what it sends to the console, so [testBlock]
    and [test] return the console calls they make, in order. *)
Inductive console_call :=
| console_groupEnd
| console_group (label : string)
| console_log (text : string)
| console_error (text : string)
| console_debug (v : value).

(** The escape [\n]. *)
Definition newline : string := String (ascii_of_nat 10) EmptyString.

(** [ToString], as a template literal applies it to a substitution.  A
    symbol throws; an array is joined; the [toString] method of another
    object is outside the model ([None] in both cases). *)
Definition ToString (v : value) : option string :=
  match v with
  | VUndefined => Some "undefined"
  | VNull => Some "null"
  | VBoolean b => Some (if b then "true" else "false")
  | VNumber x => Js.Number_toString x
  | VBigInt z => Some (Js.decimal z)
  | VString s => Some s
  | VSymbol _ _ => None
  | VObject _ => None
  | VArray _ _ elems => Js.join elems
  end.

(** [testBlock]: lines 3-6 and 279-282. *)
Definition testBlock (name : value) : option (list console_call) :=
  match ToString name with
  | Some text => Some [console_groupEnd; console_group ("# " ++ text ++ newline)]
  | None => None
  end.

(** The two branches of [test], given the verdict of [areEqual]. *)
Definition report (equal : bool) (whatWeTest actualResult expectedResult : value)
    : option (list console_call) :=
  match ToString whatWeTest with
  | Some text =>
      if equal then Some [console_log ("[OK] " ++ text ++ newline)]
      else Some [ console_error ("[FAIL] " ++ text);
                  console_debug (VString "Expected:");
                  console_debug expectedResult;
                  console_debug (VString "Actual:");
                  console_debug actualResult;
                  console_log EmptyString ]
  | None => None
  end.

Module TsHarness.

(** [test] of the TypeScript part, lines 303-314. *)
Definition test (whatWeTest actualResult expectedResult : value)
    : option (list console_call) :=
  report (Ts.areEqual actualResult expectedResult)
         whatWeTest actualResult expectedResult.

End TsHarness.

Module JsHarness.

(** [test] of the JavaScript part, lines 17-28. *)
Definition test (whatWeTest actualResult expectedResult : value)
    : option (list console_call) :=
  match Js.areEqual actualResult expectedResult with
  | Some equal => report equal whatWeTest actualResult expectedResult
  | None => None
  end.

End JsHarness.

(** The array of strings that [getTypesOfItems] and [getRealTypesOfItems]
    return, and the array that [countRealTypes] returns, as values; [a] is
    the identity the new array gets. *)
Definition strings (a : nat) (texts : list string) : value :=
  array_literal a (List.map VString texts).

(** The tag of the [instanceof] rule of a constructor. *)
Definition class_tag (C : class) : string :=
  match C with
  | CFunction => "function"
  | CDate => "date"
  | CRegExp => "regexp"
  | CSet => "set"
  | CMap => "map"
  | CWeakSet => "weakset"
  | CWeakMap => "weakmap"
  | CPromise => "promise"
  | _ => "object"
  end.

(** The constructors [getRealType] asks about, in the order it asks. *)
Definition asked : list class :=
  [CFunction; CDate; CRegExp; CSet; CMap; CWeakSet; CWeakMap; CPromise].

(** * Properties *)

(** ** The classifier *)

Lemma getRealType_first_match (v : value) :
  getRealType v = first_match rules "unknown" v.
Proof. reflexivity. Qed.

Lemma first_match_In (rs : list ((value -> bool) * string)) (d : string) (v : value) :
  In (first_match rs d v) (List.map snd rs ++ [d]).
Proof.
  induction rs as [|[test tag] rs IH]; simpl.
  - now left.
  - destruct (test v); [now left | now right].
Qed.

Lemma getRealType_tags (v : value) : In (getRealType v) tags.
Proof.
  rewrite getRealType_first_match.
  exact (first_match_In rules "unknown" v).
Qed.


(** The last resort is taken by a callable object that does not inherit from
    [Function.prototype]. *)
Lemma getRealType_unknown_reached :
  getRealType (VObject (Object 0 true NoData [])) = "unknown".
Proof. reflexivity. Qed.

Lemma SFeqb_refl (x : spec_float) : x <> S754_nan -> SFeqb x x = true.
Proof.
  destruct x as [s|s| |s m e]; unfold SFeqb; simpl; try congruence.
  - now destruct s.
  - intros _. rewrite Z.compare_refl, Pos.compare_cont_refl. now destruct s.
Qed.


(** C5: on a number, [getRealType] answers ['NaN'] exactly when the number is
    not [===] to itself, ['Infinity'] exactly when it is one of the two
    infinities, and ['number'] in every other case; in the chain of rules
    the test for the infinities comes before the test for NaN, which comes
    before the test [typeof value === 'number'], a test that every number
    passes. *)
Theorem getRealType_number (x : spec_float) :
  (getRealType (VNumber x) = "NaN" <-> strict_eq (VNumber x) (VNumber x) = false)
  /\ (getRealType (VNumber x) = "Infinity"
      <-> VNumber x = Infinity \/ VNumber x = NegInfinity)
  /\ getRealType (VNumber x) =
       (if strict_eq (VNumber x) Infinity || strict_eq (VNumber x) NegInfinity
        then "Infinity"
        else if negb (strict_eq (VNumber x) (VNumber x)) then "NaN"
        else "number")
  /\ (forall v, getRealType v = first_match rules "unknown" v)
  /\ (exists test_infinity test_nan test_number,
        nth_error rules 4 = Some (test_infinity, "Infinity")
        /\ nth_error rules 5 = Some (test_nan, "NaN")
        /\ nth_error rules 6 = Some (test_number, "number")
        /\ (forall v, test_infinity v = strict_eq v Infinity || strict_eq v NegInfinity)
        /\ (forall v, test_nan v = Number_isNaN v)
        /\ (forall v, test_number v = (typeof v =? "number"))
        /\ test_number (VNumber x) = true).
Proof.
  split; [|split; [|split; [|split]]].
  - destruct x as [s|s| |s m e].
    + simpl. now destruct s.
    + simpl. now destruct s.
    + simpl. tauto.
    + pose proof (SFeqb_refl (S754_finite s m e)) as H.
      simpl. rewrite H by discriminate.
      unfold getRealType; simpl. split; discriminate.
  - destruct x as [s|s| |s m e]; unfold Infinity, NegInfinity.
    + unfold getRealType; simpl. destruct s; (split; [discriminate | intros [?|?]; discriminate]).
    + destruct s; unfold getRealType; simpl; (split; [intros _|reflexivity]); auto.
    + unfold getRealType; simpl. split; [discriminate | intros [?|?]; discriminate].
    + unfold getRealType; simpl. split; [discriminate | intros [?|?]; discriminate].
  - destruct x as [s|s| |s m e].
    + now destruct s.
    + now destruct s.
    + reflexivity.
    + pose proof (SFeqb_refl (S754_finite s m e)) as H.
      simpl strict_eq. rewrite H by discriminate. reflexivity.
  - exact getRealType_first_match.
  - eexists _, _, _. repeat split; reflexivity.
Qed.


(** A non-callable object that inherits from none of the constructors
    [getRealType] asks about falls through to the rule for ['object']. *)
Lemma getRealType_plain (o : object) :
  callable o = false ->
  (forall C, In C [CFunction; CDate; CRegExp; CSet; CMap; CWeakSet; CWeakMap; CPromise] ->
             ~ In C (chain o)) ->
  getRealType (VObject o) = "object".
Proof.
  intros Hcall Hchain.
  assert (Hno : forall C,
    In C [CFunction; CDate; CRegExp; CSet; CMap; CWeakSet; CWeakMap; CPromise] ->
    instanceof (VObject o) C = false).
  { intros C HC. unfold instanceof. apply bool_decide_eq_false.
    simpl. rewrite list_elem_of_In. now apply Hchain. }
  unfold getRealType. simpl typeof. rewrite Hcall. simpl.
  rewrite !Hno by (simpl; tauto). reflexivity.
Qed.


(** ** Equality *)

(** Induction on values that reaches the elements of an array. *)
Lemma value_nested_ind (P : value -> Prop) :
  (forall v, Array_isArray v = false -> P v) ->
  (forall a protos elems, Forall P elems -> P (VArray a protos elems)) ->
  forall v, P v.
Proof.
  intros Hflat Harray. fix IH 1.
  intros [ | |b|x|z|s|i d|o|a protos elems]; try (apply Hflat; reflexivity).
  apply Harray. induction elems as [|e elems IHelems]; constructor.
  - apply IH.
  - exact IHelems.
Qed.

(** The [for] loop of [Ts.areEqual] on its own. *)
Definition each_index (f : value -> value -> bool) : list value -> list value -> bool :=
  fix loop (xs ys : list value) : bool :=
    match xs, ys with
    | x :: xs', y :: ys' => if negb (f x y) then false else loop xs' ys'
    | _, _ => true
    end.

Lemma Ts_areEqual_array a p xs b q ys :
  Ts.areEqual (VArray a p xs) (VArray b q ys) =
    if negb (length xs =? length ys)%nat then false
    else each_index Ts.areEqual xs ys.
Proof. reflexivity. Qed.

Lemma Ts_areEqual_flat (a b : value) :
  Array_isArray a && Array_isArray b = false -> Ts.areEqual a b = strict_eq a b.
Proof. destruct a, b; simpl; intros H; try reflexivity; discriminate. Qed.

Lemma each_index_true (f : value -> value -> bool) (xs ys : list value) :
  each_index f xs ys = true <->
  forall i x y, xs !! i = Some x -> ys !! i = Some y -> f x y = true.
Proof.
  revert ys. induction xs as [|x xs IH]; intros [|y ys]; simpl.
  - split; [intros _ i x' y' H1 H2; destruct i; discriminate | reflexivity].
  - split; [intros _ i x' y' H1 H2; destruct i; discriminate | reflexivity].
  - split; [intros _ i x' y' H1 H2; destruct i; discriminate | reflexivity].
  - destruct (f x y) eqn:E; simpl.
    + rewrite IH. split.
      * intros H [|i] x' y' H1 H2; simpl in *.
        -- congruence.
        -- eauto.
      * intros H i x' y' H1 H2. exact (H (S i) x' y' H1 H2).
    + split; [discriminate|]. intros H.
      specialize (H 0 x y eq_refl eq_refl). congruence.
Qed.

(** What the TypeScript [areEqual] computes on two arrays: the lengths agree
    and the elements at every index are equal in turn. *)
Theorem Ts_areEqual_arrays a p (xs : list value) b q (ys : list value) :
  Ts.areEqual (VArray a p xs) (VArray b q ys) = true <->
  length xs = length ys /\
  forall i x y, xs !! i = Some x -> ys !! i = Some y -> Ts.areEqual x y = true.
Proof.
  rewrite Ts_areEqual_array, <- each_index_true.
  destruct (length xs =? length ys)%nat eqn:E; simpl.
  - apply Nat.eqb_eq in E. tauto.
  - apply Nat.eqb_neq in E. split; [discriminate | tauto].
Qed.

Example Ts_areEqual_examples :
  Ts.areEqual (array_literal 1 [num 11; num 12]) (array_literal 2 [num 11; num 12]) = true
  /\ Ts.areEqual (array_literal 1 [num 11; num 12])
                 (array_literal 2 [num 11; num 12; num 13]) = false
  /\ Ts.areEqual (array_literal 1 [num 11; num 12])
                 (array_literal 2 [VString "11"; VString "12"]) = false.
Proof. repeat split; reflexivity. Qed.

(** C1: the rule holds for the TypeScript [areEqual] ([Ts_areEqual_arrays]);
    the JavaScript [areEqual] compares the joined texts of the two arrays
    and so takes [[11, 12]] and [['11', '12']] for equal. *)
Theorem Js_areEqual_joins :
  Js.areEqual (array_literal 1 [num 11; num 12])
              (array_literal 2 [VString "11"; VString "12"]) = Some true
  /\ Ts.areEqual (array_literal 1 [num 11; num 12])
                 (array_literal 2 [VString "11"; VString "12"]) = false.
Proof. split; reflexivity. Qed.










(** C9: [areEqual(NaN, NaN)] is false in both parts of the source, because
    operands that are not both arrays are compared by [===]; so [areEqual]
    is not reflexive. *)
Theorem areEqual_NaN :
  Ts.areEqual NaN NaN = false
  /\ Js.areEqual NaN NaN = Some false
  /\ (forall a b,
        Ts.areEqual a b =
          (if Array_isArray a && Array_isArray b then Ts.areEqual a b
           else strict_eq a b)
        /\ Js.areEqual a b =
          (if Array_isArray a && Array_isArray b then Js.areEqual a b
           else Some (strict_eq a b)))
  /\ strict_eq NaN NaN = false
  /\ (exists v, Ts.areEqual v v = false).
Proof.
  split; [reflexivity|]. split; [reflexivity|]. split; [|split].
  - intros a b. destruct (Array_isArray a && Array_isArray b) eqn:E.
    + split; reflexivity.
    + split; [now apply Ts_areEqual_flat|].
      destruct a, b; try reflexivity; discriminate.
  - reflexivity.
  - now exists NaN.
Qed.

(** ** The [Set] of types *)

Section types_set.
Context {A : Type} (f : A -> string).

(** What the [forEach] loop leaves in [types]. *)
Lemma forEach_add (arr : list A) (types : gset string) :
  fold_left (fun types value => types ∪ {[ f value ]}) arr types
  = types ∪ list_to_set (List.map f arr).
Proof.
  revert types. induction arr as [|x arr IH]; intros types; simpl.
  - set_solver.
  - rewrite IH. set_solver.
Qed.
End types_set.

Lemma size_add_le (x : string) (X : gset string) :
  size ({[x]} ∪ X) <= 1 + size X.
Proof.
  rewrite size_union_alt, size_singleton.
  assert (size (X ∖ {[x]}) <= size X) by (apply subseteq_size; set_solver).
  lia.
Qed.

Lemma size_types_le (l : list string) :
  size (list_to_set l : gset string) <= length l.
Proof.
  induction l as [|x l IH].
  - rewrite list_to_set_nil, size_empty. reflexivity.
  - rewrite list_to_set_cons. pose proof (size_add_le x (list_to_set l)).
    simpl. lia.
Qed.

Lemma size_types_NoDup (l : list string) :
  size (list_to_set l : gset string) = length l <-> NoDup l.
Proof.
  split; [|apply size_list_to_set].
  induction l as [|x l IH]; intros H; constructor.
  - intros Hx. rewrite list_to_set_cons in H.
    assert (E : ({[x]} ∪ list_to_set l : gset string) = list_to_set l)
      by (clear - Hx; set_solver).
    rewrite E in H. pose proof (size_types_le l). simpl in H. lia.
  - apply IH. pose proof (size_types_le l) as Hle.
    rewrite list_to_set_cons in H.
    pose proof (size_add_le x (list_to_set l)). simpl in H. lia.
Qed.

(** [allItemsHaveTheSameType] in terms of the items: it holds of the arrays
    that have an item and whose items all have one [typeof]. *)
Lemma allItemsHaveTheSameType_spec (arr : list value) :
  allItemsHaveTheSameType arr = true <->
  arr <> [] /\ forall x y, In x arr -> In y arr -> typeof x = typeof y.
Proof.
  unfold allItemsHaveTheSameType. rewrite forEach_add, Nat.eqb_eq.
  rewrite (left_id_L ∅ (∪)). split.
  - intros H. apply size_1_elem_of in H as [t Ht]. split.
    + intros ->. simpl in Ht. set_solver.
    + intros x y Hx Hy.
      assert (Hin : forall z, In z arr -> typeof z = t).
      { intros z Hz. apply (in_map typeof) in Hz. apply list_elem_of_In in Hz.
        assert (typeof z ∈ (list_to_set (List.map typeof arr) : gset string))
          by now apply elem_of_list_to_set.
        set_solver. }
      now rewrite (Hin x Hx), (Hin y Hy).
  - intros [Hne Hsame]. destruct arr as [|x arr]; [congruence|].
    assert (E : (list_to_set (List.map typeof (x :: arr)) : gset string) = {[ typeof x ]}).
    { apply set_eq. intros t. rewrite elem_of_list_to_set, elem_of_singleton.
      rewrite list_elem_of_In, in_map_iff. split.
      - intros [y [<- Hy]]. apply Hsame; [exact Hy | now left].
      - intros ->. exists x. split; [reflexivity | now left]. }
    rewrite E. apply size_singleton.
Qed.

(** C2: on the empty array the code answers [false], the [Set] of types
    being empty; on every array with an item it answers whether all items
    have one [typeof] ([allItemsHaveTheSameType_spec]). *)
Theorem allItemsHaveTheSameType_empty :
  allItemsHaveTheSameType [] = false
  /\ (forall x, allItemsHaveTheSameType [x] = true)
  /\ everyItemHasAUniqueRealType [] = true.
Proof.
  split; [reflexivity|]. split; [|reflexivity].
  intros x. apply allItemsHaveTheSameType_spec. split; [discriminate|].
  intros y z [<-|[]] [<-|[]]. reflexivity.
Qed.

Lemma everyItemHasAUniqueRealType_NoDup (arr : list value) :
  everyItemHasAUniqueRealType arr = true <-> NoDup (getRealTypesOfItems arr).
Proof.
  unfold everyItemHasAUniqueRealType, getRealTypesOfItems.
  rewrite forEach_add, Nat.eqb_eq, (left_id_L ∅ (∪)).
  rewrite <- size_types_NoDup, length_map. split; congruence.
Qed.

(** ** The counting object *)

Lemma get_put_eq (map : dict) (key : string) (n : nat) :
  get (put map key n) key = Some n.
Proof.
  induction map as [|[k m] map IH]; simpl.
  - now rewrite String.eqb_refl.
  - destruct (k =? key) eqn:E; simpl; rewrite E; [reflexivity | exact IH].
Qed.

Lemma get_put_ne (map : dict) (key key' : string) (n : nat) :
  key <> key' -> get (put map key n) key' = get map key'.
Proof.
  intros Hne. induction map as [|[k m] map IH]; simpl.
  - apply String.eqb_neq in Hne. now rewrite Hne.
  - destruct (k =? key) eqn:E; simpl.
    + apply String.eqb_eq in E. subst k.
      apply String.eqb_neq in Hne. now rewrite Hne.
    + now rewrite IH.
Qed.

Lemma put_put (map : dict) (key : string) (n n' : nat) :
  put (put map key n) key n' = put map key n'.
Proof.
  induction map as [|[k m] map IH]; simpl.
  - now rewrite String.eqb_refl.
  - destruct (k =? key) eqn:E; simpl; rewrite E; [reflexivity | now rewrite IH].
Qed.

Lemma get_None (map : dict) (key : string) :
  get map key = None <-> ~ In key (List.map fst map).
Proof.
  induction map as [|[k m] map IH]; simpl; [tauto|].
  destruct (k =? key) eqn:E.
  - apply String.eqb_eq in E. split; [discriminate | tauto].
  - apply String.eqb_neq in E. tauto.
Qed.

Lemma get_In (map : dict) (key : string) (n : nat) :
  List.NoDup (List.map fst map) -> In (key, n) map -> get map key = Some n.
Proof.
  induction map as [|[k m] map IH]; simpl; [tauto|].
  intros Hnd [H|H]; inversion Hnd as [|? ? Hk Hnd']; subst.
  - inversion H; subst. now rewrite String.eqb_refl.
  - destruct (k =? key) eqn:E; [|now apply IH].
    apply String.eqb_eq in E. subst k.
    exfalso. apply Hk. change key with (fst (key, n)). now apply in_map.
Qed.

Lemma keys_put (map : dict) (key : string) (n : nat) :
  List.map fst (put map key n) =
    match get map key with
    | Some _ => List.map fst map
    | None => (List.map fst map ++ [key])%list
    end.
Proof.
  induction map as [|[k m] map IH]; simpl; [reflexivity|].
  destruct (k =? key) eqn:E; simpl; [reflexivity|].
  rewrite IH. now destruct (get map key).
Qed.


(** One step of the loop adds one to the count of the tag, starting the
    count at zero for a tag that has none yet. *)
Lemma count_one_put (map : dict) (value : value) :
  count_one map value =
    put map (getRealType value) (default 0 (get map (getRealType value)) + 1).
Proof.
  unfold count_one. destruct (get map (getRealType value)) as [[|n]|] eqn:E; simpl.
  - now rewrite get_put_eq, put_put.
  - now rewrite E.
  - now rewrite get_put_eq, put_put.
Qed.

(** [counts_of seen map]: [map] holds, for the tags in [seen] and no others,
    how often each occurs in [seen]. *)
Definition counts_of (seen : list string) (map : dict) : Prop :=
  List.NoDup (List.map fst map)
  /\ forall tag, get map tag =
       match count_occ string_dec seen tag with
       | 0 => None
       | S n => Some (S n)
       end.

Lemma counts_of_step (seen : list string) (map : dict) (value : value) :
  counts_of seen map ->
  counts_of (seen ++ [getRealType value])%list (count_one map value).
Proof.
  intros [Hnd Hget]. rewrite count_one_put.
  set (tag := getRealType value). split.
  - rewrite keys_put. destruct (get map tag) eqn:E; [exact Hnd|].
    apply get_None in E.
    apply NoDup_ListNoDup, NoDup_app. repeat split.
    + now apply NoDup_ListNoDup.
    + intros x Hx Hx'. apply list_elem_of_In in Hx.
      apply list_elem_of_singleton in Hx'. now subst x.
    + apply NoDup_singleton.
  - intros tag'. rewrite count_occ_app. simpl.
    destruct (string_dec tag tag') as [<-|Hne].
    + rewrite get_put_eq, Hget.
      destruct (count_occ string_dec seen tag); simpl; f_equal; lia.
    + rewrite get_put_ne by exact Hne. rewrite Hget. now rewrite Nat.add_0_r.
Qed.

Lemma counts_of_forEach (arr : list value) (seen : list string) (map : dict) :
  counts_of seen map ->
  counts_of (seen ++ List.map getRealType arr)%list (fold_left count_one arr map).
Proof.
  revert seen map. induction arr as [|value arr IH]; intros seen map H; simpl.
  - now rewrite app_nil_r.
  - replace (seen ++ getRealType value :: List.map getRealType arr)%list
      with ((seen ++ [getRealType value]) ++ List.map getRealType arr)%list
      by now rewrite <- app_assoc.
    apply IH. now apply counts_of_step.
Qed.


Lemma counts_of_keys (seen : list string) (map : dict) (tag : string) :
  counts_of seen map -> In tag (List.map fst map) <-> In tag seen.
Proof.
  intros [_ Hget]. rewrite (count_occ_In string_dec seen tag).
  destruct (in_dec string_dec tag (List.map fst map)) as [Hin|Hout].
  - split; [intros _|tauto].
    destruct (count_occ string_dec seen tag) eqn:E; [|lia].
    specialize (Hget tag). rewrite E in Hget. apply get_None in Hget. tauto.
  - split; [tauto|]. intros Hpos. apply get_None in Hout.
    rewrite Hget in Hout. destruct (count_occ string_dec seen tag); [lia|discriminate].
Qed.

Lemma counts_of_entry (seen : list string) (map : dict) (tag : string) (n : nat) :
  counts_of seen map -> In (tag, n) map ->
  n = count_occ string_dec seen tag /\ 1 <= n.
Proof.
  intros [Hnd Hget] Hin. apply (get_In _ _ _ Hnd) in Hin.
  rewrite Hget in Hin. destruct (count_occ string_dec seen tag); inversion Hin.
  split; [reflexivity | lia].
Qed.

(** ** Sorting *)

Section sorting.
Context {A : Type} (compare : A -> A -> Z).

Lemma insert_by_Permutation (x : A) (l : list A) :
  Permutation (insert_by compare x l) (x :: l).
Proof.
  induction l as [|y l IH]; simpl; [reflexivity|].
  destruct (compare x y <=? 0)%Z; [reflexivity|].
  rewrite IH. apply perm_swap.
Qed.

Lemma sort_Permutation (l : list A) : Permutation (sort compare l) l.
Proof.
  induction l as [|x l IH]; simpl; [reflexivity|].
  rewrite insert_by_Permutation. now constructor.
Qed.

(** The comparator puts any two elements in some order. *)
Hypothesis compare_total :
  forall a b, (0 < compare a b)%Z -> (compare b a <= 0)%Z.

Let before (a b : A) : Prop := (compare a b <= 0)%Z.

Lemma insert_by_Sorted (x : A) (l : list A) :
  Sorted before l -> Sorted before (insert_by compare x l).
Proof.
  induction 1 as [|y l Hl IH Hy]; simpl.
  - repeat constructor.
  - destruct (compare x y <=? 0)%Z eqn:E.
    + apply Z.leb_le in E. repeat constructor; assumption.
    + apply Z.leb_gt in E. constructor; [exact IH|].
      destruct Hy as [|z l Hz]; simpl.
      * constructor. now apply compare_total.
      * destruct (compare x z <=? 0)%Z; constructor;
          [now apply compare_total | exact Hz].
Qed.

Lemma sort_Sorted (l : list A) : Sorted before (sort compare l).
Proof.
  induction l as [|x l IH]; simpl; [constructor|].
  now apply insert_by_Sorted.
Qed.
End sorting.

Lemma String_compare_refl (s : string) : String.compare s s = Eq.
Proof.
  pose proof (String.compare_antisym s s) as H.
  destruct (String.compare s s); simpl in H; congruence.
Qed.

Lemma String_compare_trans (s t u : string) :
  String.compare s t = Lt -> String.compare t u = Lt -> String.compare s u = Lt.
Proof.
  revert t u. induction s as [|a s IH]; intros [|b t] [|c u]; simpl;
    try discriminate; try reflexivity.
  destruct (Ascii.compare a b) eqn:Eab; try discriminate;
    destruct (Ascii.compare b c) eqn:Ebc; try discriminate; intros Hst Htu.
  - apply Ascii.compare_eq_iff in Eab, Ebc. subst b c.
    unfold Ascii.compare. rewrite N.compare_refl. now apply (IH t u).
  - apply Ascii.compare_eq_iff in Eab. subst b. now rewrite Ebc.
  - apply Ascii.compare_eq_iff in Ebc. subst c. now rewrite Eab.
  - unfold Ascii.compare in *. rewrite N.compare_lt_iff in Eab, Ebc.
    assert (E : (N_of_ascii a ?= N_of_ascii c)%N = Lt)
      by (apply N.compare_lt_iff; lia).
    now rewrite E.
Qed.

Lemma localeCompare_antisym (s t : string) :
  localeCompare t s = (- localeCompare s t)%Z.
Proof.
  unfold localeCompare.
  rewrite (String.compare_antisym (toLowerCase s) (toLowerCase t)).
  rewrite (String.compare_antisym s t).
  destruct (String.compare (toLowerCase t) (toLowerCase s)); simpl;
    try reflexivity.
  destruct (String.compare t s); reflexivity.
Qed.

Lemma localeCompare_0 (s t : string) : localeCompare s t = 0%Z -> s = t.
Proof.
  unfold localeCompare.
  destruct (String.compare (toLowerCase s) (toLowerCase t)); try discriminate.
  destruct (String.compare t s) eqn:E; try discriminate.
  intros _. symmetry. now apply String.compare_eq_iff.
Qed.

(** Sorted entries with distinct keys have their keys in strictly
    increasing order. *)
Lemma Sorted_keys_strict (l : list (string * nat)) :
  Sorted (fun a b => (localeCompare (fst a) (fst b) <= 0)%Z) l ->
  List.NoDup (List.map fst l) ->
  Sorted (fun s t => (localeCompare s t < 0)%Z) (List.map fst l).
Proof.
  induction 1 as [|a l Hl IH Ha]; simpl; intros Hnd; [constructor|].
  inversion Hnd as [|? ? Hout Hnd']; subst.
  constructor; [now apply IH|].
  destruct Ha as [|b l Hb]; simpl; constructor.
  assert (fst a <> fst b) by (intros E; apply Hout; simpl; now left).
  cbv beta in Hb.
  destruct (Z.eq_dec (localeCompare (fst a) (fst b)) 0%Z) as [E|E]; [|lia].
  now apply localeCompare_0 in E.
Qed.


(** On the tags, the order of [localeCompare] is the order of the
    lower-cased words: no two tags differ in case only. *)
Lemma toLowerCase_tags (s t : string) :
  In s tags -> In t tags -> toLowerCase s = toLowerCase t -> s = t.
Proof.
  assert (H : forallb (fun s => forallb (fun t =>
                implb (toLowerCase s =? toLowerCase t) (s =? t)) tags) tags = true)
    by (vm_compute; reflexivity).
  intros Hs Ht E. rewrite forallb_forall in H. specialize (H s Hs).
  rewrite forallb_forall in H. specialize (H t Ht).
  apply String.eqb_eq in E. rewrite E in H. now apply String.eqb_eq.
Qed.

Lemma localeCompare_tags (s t : string) :
  In s tags -> In t tags -> (localeCompare s t < 0)%Z ->
  (toLowerCase s <? toLowerCase t)%string = true.
Proof.
  intros Hs Ht. unfold localeCompare, String.ltb.
  destruct (String.compare (toLowerCase s) (toLowerCase t)) eqn:E;
    [|reflexivity|intros; lia].
  apply String.compare_eq_iff in E. apply (toLowerCase_tags s t Hs Ht) in E.
  subst t. rewrite String_compare_refl. lia.
Qed.

Lemma Sorted_impl_In {A} (R R' : A -> A -> Prop) (l : list A) :
  (forall a b, In a l -> In b l -> R a b -> R' a b) ->
  Sorted R l -> Sorted R' l.
Proof.
  intros Himpl H. induction H as [|a l Hl IH Ha]; constructor.
  - apply IH. intros x y Hx Hy. apply Himpl; now right.
  - destruct Ha as [|b l Hb]; constructor.
    apply Himpl; simpl; auto.
Qed.

(** ** [countRealTypes] *)

Lemma forEach_counts (arr : list value) :
  counts_of (List.map getRealType arr) (fold_left count_one arr []).
Proof.
  apply (counts_of_forEach arr [] []). split; [constructor | reflexivity].
Qed.

Lemma countRealTypes_Permutation (arr : list value) :
  Permutation (countRealTypes arr) (fold_left count_one arr []).
Proof. apply sort_Permutation. Qed.

Lemma countRealTypes_NoDup (arr : list value) :
  List.NoDup (List.map fst (countRealTypes arr)).
Proof.
  apply (Permutation_NoDup (l := List.map fst (fold_left count_one arr []))).
  - symmetry. apply Permutation_map, countRealTypes_Permutation.
  - apply forEach_counts.
Qed.

(** One entry per tag that occurs, holding how often it occurs. *)
Lemma countRealTypes_entry (arr : list value) (tag : string) (n : nat) :
  In (tag, n) (countRealTypes arr) <->
  n = count_occ string_dec (getRealTypesOfItems arr) tag /\ 1 <= n.
Proof.
  pose proof (forEach_counts arr) as Hc. split.
  - intros H. apply (Permutation_in _ (countRealTypes_Permutation arr)) in H.
    exact (counts_of_entry _ _ _ _ Hc H).
  - intros [-> Hn].
    apply (Permutation_in _ (Permutation_sym (countRealTypes_Permutation arr))).
    destruct Hc as [Hnd Hget]. specialize (Hget tag).
    unfold getRealTypesOfItems in *.
    destruct (count_occ string_dec (List.map getRealType arr) tag) as [|k]; [lia|].
    clear Hn Hnd. induction (fold_left count_one arr []) as [|[k' m] map IH];
      simpl in *; [discriminate|].
    destruct (k' =? tag) eqn:E.
    + apply String.eqb_eq in E. left. congruence.
    + right. now apply IH.
Qed.

Lemma countRealTypes_keys (arr : list value) (tag : string) :
  In tag (List.map fst (countRealTypes arr)) <-> In tag (getRealTypesOfItems arr).
Proof.
  rewrite <- (counts_of_keys _ _ tag (forEach_counts arr)).
  split; apply Permutation_in, Permutation_map;
    [|symmetry]; apply countRealTypes_Permutation.
Qed.




Example countRealTypes_examples :
  countRealTypes [VBoolean true; VNull; VBoolean false; VBoolean true; object_literal 1]
    = [("boolean", 3); ("null", 1); ("object", 1)]
  /\ countRealTypes [object_literal 1; VNull; VBoolean true; VBoolean true; VBoolean false]
    = [("boolean", 3); ("null", 1); ("object", 1)]
  /\ countRealTypes [VBigInt 1; Infinity] = [("bigint", 1); ("Infinity", 1)].
Proof. repeat split; reflexivity. Qed.

(** ** [everyItemHasAUniqueRealType] against [countRealTypes] *)




(** * Further properties *)

(** ** More on the classifier *)

Ltac split_rules :=
  repeat match goal with
         | |- context [if ?c then _ else _] => destruct c eqn:?
         end.

(** An object gets the tag of the first constructor, in the order of the
    rules, that it inherits from. *)
Lemma getRealType_object (o : object) :
  getRealType (VObject o) =
    match List.find (instanceof (VObject o)) asked with
    | Some C => class_tag C
    | None => if callable o then "unknown" else "object"
    end.
Proof.
  unfold getRealType, asked. simpl typeof. simpl List.find.
  destruct (callable o); simpl; split_rules; reflexivity.
Qed.

(** X1: how [getRealType] sits on top of [getType].  For the [typeof]
    answers ['boolean'], ['string'], ['undefined'], ['bigint'] and ['symbol']
    the two agree; ['number'] is split into three tags, ['object'] into
    eleven, and ['function'] into nine, ['unknown'] among them. *)
Theorem getRealType_by_typeof (v : value) :
  (In (typeof v) ["boolean"; "string"; "undefined"; "bigint"; "symbol"]
   /\ getRealType v = typeof v)
  \/ (typeof v = "number" /\ In (getRealType v) ["Infinity"; "NaN"; "number"])
  \/ (typeof v = "object"
      /\ In (getRealType v)
            ["null"; "array"; "function"; "date"; "regexp"; "set"; "map";
             "weakset"; "weakmap"; "promise"; "object"])
  \/ (typeof v = "function"
      /\ In (getRealType v)
            ["function"; "date"; "regexp"; "set"; "map"; "weakset"; "weakmap";
             "promise"; "unknown"]).
Proof.
  destruct v as [ | |b|x|z|s|i d|o|a p xs].
  - left. split; [simpl; tauto | reflexivity].
  - right. right. left. split; [reflexivity | simpl; tauto].
  - left. split; [simpl; tauto | reflexivity].
  - right. left. split; [reflexivity|].
    destruct x as [[]|[]| |[] m e]; unfold getRealType; simpl; tauto.
  - left. split; [simpl; tauto | reflexivity].
  - left. split; [simpl; tauto | reflexivity].
  - left. split; [simpl; tauto | reflexivity].
  - rewrite getRealType_object. simpl typeof. unfold asked. simpl List.find.
    destruct (callable o); [right; right; right | right; right; left];
      (split; [reflexivity|]); split_rules; simpl; tauto.
  - right. right. left. split; [reflexivity | simpl; tauto].
Qed.

Lemma class_tag_asked (C : class) : class_tag C <> "unknown".
Proof. destruct C; discriminate. Qed.

(** X2: the last resort ['unknown'] is given to the callable values that
    inherit from none of the constructors the rules ask about, and to no
    other value. *)
Theorem getRealType_unknown (v : value) :
  getRealType v = "unknown" <->
  typeof v = "function" /\ List.find (instanceof v) asked = None.
Proof.
  destruct v as [ | |b|x|z|s|i d|o|a p xs];
    try (split; [discriminate | intros [H _]; discriminate H]).
  - split; [|intros [H _]; discriminate H].
    destruct x as [[]|[]| |[] m e]; discriminate.
  - rewrite getRealType_object. simpl typeof.
    destruct (List.find (instanceof (VObject o)) asked) as [C|].
    + split; [intros H; now apply class_tag_asked in H | intros [_ H]; discriminate H].
    + destruct (callable o); split; try tauto; try discriminate.
      intros [H _]. discriminate H.
Qed.

(** X3: ten rules are never pre-empted by a rule in front of them: each of
    these tags is given exactly when the test of its own rule holds.  The
    rule for ['function'] is pre-empted by the rule for arrays only. *)
Theorem getRealType_unshadowed (v : value) :
  (getRealType v = "boolean" <-> typeof v = "boolean")
  /\ (getRealType v = "string" <-> typeof v = "string")
  /\ (getRealType v = "undefined" <-> typeof v = "undefined")
  /\ (getRealType v = "null" <-> strict_eq v VNull = true)
  /\ (getRealType v = "Infinity" <->
        strict_eq v Infinity || strict_eq v NegInfinity = true)
  /\ (getRealType v = "NaN" <-> Number_isNaN v = true)
  /\ (getRealType v = "bigint" <-> typeof v = "bigint")
  /\ (getRealType v = "array" <-> Array_isArray v = true)
  /\ (getRealType v = "symbol" <-> typeof v = "symbol")
  /\ (getRealType v = "function" <->
        instanceof v CFunction = true /\ Array_isArray v = false).
Proof.
  destruct v as [ | |b|x|z|s|i d|o|a p xs].
  1-3, 5-7: unfold instanceof; simpl;
    repeat split; intros; try discriminate; try tauto; intuition discriminate.
  - destruct x as [[]|[]| |[] m e]; unfold instanceof; simpl;
      repeat split; intros; try discriminate; try tauto; intuition discriminate.
  - rewrite getRealType_object. unfold asked. simpl List.find. simpl typeof.
    simpl strict_eq. simpl Number_isNaN. simpl Array_isArray.
    destruct (callable o); split_rules; simpl;
      repeat split; intros; try discriminate; try tauto; intuition discriminate.
  - unfold getRealType; simpl. destruct (instanceof (VArray a p xs) CFunction);
    repeat split; intros; try discriminate; try tauto; intuition discriminate.
Qed.

(** X4: among the [instanceof] rules the order of the rules decides, not the
    order of the prototype chain: an object gets the tag of the first
    constructor in the list [asked] that it inherits from, and ['object'] or
    ['unknown'] when there is none; an array is an ['array'] whatever it
    inherits from. *)
Theorem getRealType_first_constructor :
  (forall o,
     getRealType (VObject o) =
       match List.find (instanceof (VObject o)) asked with
       | Some C => class_tag C
       | None => if callable o then "unknown" else "object"
       end)
  /\ (forall a protos elems, getRealType (VArray a protos elems) = "array")
  /\ (forall a, getRealType (VObject (Object a false NoData [CDate; CFunction]))
                = "function").
Proof.
  split; [exact getRealType_object|]. split; reflexivity.
Qed.

(** ** More on the functions over arrays *)

(** The order of the lower-cased words. *)
Definition below (s t : string) : Prop :=
  (toLowerCase s <? toLowerCase t)%string = true.

Lemma below_irrefl (s : string) : ~ below s s.
Proof. unfold below, String.ltb. now rewrite String_compare_refl. Qed.

Lemma below_trans (s t u : string) : below s t -> below t u -> below s u.
Proof.
  unfold below, String.ltb.
  destruct (String.compare (toLowerCase s) (toLowerCase t)) eqn:Est;
    try discriminate.
  destruct (String.compare (toLowerCase t) (toLowerCase u)) eqn:Etu;
    try discriminate.
  now rewrite (String_compare_trans _ _ _ Est Etu).
Qed.

Lemma countRealTypes_keys_below (arr : list value) :
  StronglySorted below (List.map fst (countRealTypes arr)).
Proof.
  apply Sorted_StronglySorted; [exact below_trans|].
  apply (Sorted_impl_In (fun s t => (localeCompare s t < 0)%Z)).
  - intros s t Hs Ht. apply localeCompare_tags.
    + apply countRealTypes_keys in Hs. apply in_map_iff in Hs as [v [<- _]].
      apply getRealType_tags.
    + apply countRealTypes_keys in Ht. apply in_map_iff in Ht as [v [<- _]].
      apply getRealType_tags.
  - apply Sorted_keys_strict; [|apply countRealTypes_NoDup].
    apply (sort_Sorted (fun a b => localeCompare (fst a) (fst b))).
    intros a b H. rewrite localeCompare_antisym. lia.
Qed.

(** Two strictly increasing lists with the same members are one list. *)
Lemma StronglySorted_unique (l l' : list string) :
  StronglySorted below l -> StronglySorted below l' ->
  (forall k, In k l <-> In k l') -> l = l'.
Proof.
  intros H. revert l'. induction H as [|a l Hl IH Ha]; intros l' H' Hsame.
  - destruct l' as [|b l']; [reflexivity|].
    exfalso. apply (Hsame b). now left.
  - destruct H' as [|b l' Hl' Hb].
    { exfalso. apply (Hsame a). now left. }
    rewrite List.Forall_forall in Ha, Hb.
    assert (a = b) as <-.
    { destruct (proj1 (Hsame a) (or_introl eq_refl)) as [E|Hin]; [now symmetry|].
      destruct (proj2 (Hsame b) (or_introl eq_refl)) as [E|Hin']; [exact E|].
      exfalso. apply (below_irrefl a).
      apply (below_trans a b a); [now apply Ha | now apply Hb]. }
    f_equal. apply IH; [exact Hl'|]. intros k. split; intros Hk.
    + destruct (proj1 (Hsame k) (or_intror Hk)) as [E|Hin]; [|exact Hin].
      subst k. exfalso. apply (below_irrefl a). now apply Ha.
    + destruct (proj2 (Hsame k) (or_intror Hk)) as [E|Hin]; [|exact Hin].
      subst k. exfalso. apply (below_irrefl a). now apply Hb.
Qed.

Lemma entries_of_keys (f : string -> nat) (l : list (string * nat)) :
  (forall k n, In (k, n) l -> n = f k) ->
  l = List.map (fun k => (k, f k)) (List.map fst l).
Proof.
  induction l as [|[k n] l IH]; intros H; simpl; [reflexivity|].
  rewrite <- IH by (intros k' n' Hin; apply H; now right).
  now rewrite <- (H k n) by now left.
Qed.

Lemma countRealTypes_of_keys (arr : list value) :
  countRealTypes arr =
    List.map (fun tag => (tag, count_occ string_dec (getRealTypesOfItems arr) tag))
             (List.map fst (countRealTypes arr)).
Proof.
  apply entries_of_keys. intros k n H. now apply countRealTypes_entry in H.
Qed.

(** X6: the three functions over arrays do not depend on the order of the
    items: reordering the input changes none of their results, the output
    of [countRealTypes] included. *)
Theorem order_of_items_irrelevant (arr arr' : list value) :
  Permutation arr arr' ->
  allItemsHaveTheSameType arr = allItemsHaveTheSameType arr'
  /\ everyItemHasAUniqueRealType arr = everyItemHasAUniqueRealType arr'
  /\ countRealTypes arr = countRealTypes arr'.
Proof.
  intros Hp. split; [|split].
  - unfold allItemsHaveTheSameType. rewrite !forEach_add.
    assert (E : (list_to_set (List.map typeof arr) : gset string)
                = list_to_set (List.map typeof arr')).
    { apply set_eq. intros t. rewrite !elem_of_list_to_set, !list_elem_of_In.
      split; apply Permutation_in, Permutation_map; [|symmetry]; exact Hp. }
    now rewrite E.
  - unfold everyItemHasAUniqueRealType. rewrite !forEach_add.
    assert (E : (list_to_set (List.map getRealType arr) : gset string)
                = list_to_set (List.map getRealType arr')).
    { apply set_eq. intros t. rewrite !elem_of_list_to_set, !list_elem_of_In.
      split; apply Permutation_in, Permutation_map; [|symmetry]; exact Hp. }
    now rewrite E, (Permutation_length Hp).
  - assert (Htags : Permutation (getRealTypesOfItems arr) (getRealTypesOfItems arr'))
      by now apply Permutation_map.
    assert (Hkeys : List.map fst (countRealTypes arr) = List.map fst (countRealTypes arr')).
    { apply StronglySorted_unique; try apply countRealTypes_keys_below.
      intros k. rewrite !countRealTypes_keys.
      split; apply Permutation_in; [|symmetry]; exact Htags. }
    rewrite (countRealTypes_of_keys arr), (countRealTypes_of_keys arr'), Hkeys.
    apply map_ext. intros tag. f_equal.
    now apply (Permutation_count_occ string_dec).
Qed.

Lemma order_of_items_irrelevant_witness :
  Permutation [VNull; VBoolean true; num 1] [num 1; VNull; VBoolean true]
  /\ countRealTypes [VNull; VBoolean true; num 1]
     = countRealTypes [num 1; VNull; VBoolean true].
Proof.
  assert (H : Permutation [VNull; VBoolean true; num 1] [num 1; VNull; VBoolean true]).
  { apply Permutation_sym, (Permutation_cons_app [VNull; VBoolean true] []).
    reflexivity. }
  split; [exact H|]. exact (proj2 (proj2 (order_of_items_irrelevant _ _ H))).
Defined.

(** X7: [countRealTypes] never returns more than twenty entries, nor more
    entries than the input has items. *)
Theorem countRealTypes_length (arr : list value) :
  length (countRealTypes arr) <= 20
  /\ length (countRealTypes arr) <= length arr.
Proof.
  rewrite <- (length_map fst (countRealTypes arr)). split.
  - change 20 with (length tags). apply NoDup_incl_length.
    + apply countRealTypes_NoDup.
    + intros k Hk. apply countRealTypes_keys in Hk.
      apply in_map_iff in Hk as [v [<- _]]. apply getRealType_tags.
  - rewrite <- (length_map getRealType arr). apply NoDup_incl_length.
    + apply countRealTypes_NoDup.
    + intros k Hk. now apply countRealTypes_keys in Hk.
Qed.

(** X8: [everyItemHasAUniqueRealType] rejects every array of more than
    twenty items, there being twenty tags. *)
Theorem everyItemHasAUniqueRealType_at_most_20 (arr : list value) :
  everyItemHasAUniqueRealType arr = true -> length arr <= 20.
Proof.
  intros H. apply everyItemHasAUniqueRealType_NoDup, NoDup_ListNoDup in H.
  rewrite <- (length_map getRealType arr). change 20 with (length tags).
  apply NoDup_incl_length; [exact H|].
  intros k Hk. apply in_map_iff in Hk as [v [<- _]]. apply getRealType_tags.
Qed.

Lemma everyItemHasAUniqueRealType_at_most_20_witness :
  everyItemHasAUniqueRealType [VBoolean true; num 123; VString "123"] = true
  /\ length [VBoolean true; num 123; VString "123"] <= 20.
Proof.
  split; [reflexivity|].
  apply (everyItemHasAUniqueRealType_at_most_20 [VBoolean true; num 123; VString "123"]).
  reflexivity.
Defined.

(** X10: one run of the callback of [countRealTypes] sets the count of the
    item's tag to one more than it was, a missing count and a count of zero
    both counting as zero, and leaves the count of every other tag alone; it
    adds a property only when the tag had none. *)
Theorem count_one_counts (map : dict) (value : value) :
  (forall key,
     get (count_one map value) key =
       if getRealType value =? key
       then Some (S (default 0 (get map (getRealType value))))
       else get map key)
  /\ length (count_one map value)
     = match get map (getRealType value) with
       | Some _ => length map
       | None => S (length map)
       end.
Proof.
  rewrite count_one_put. split.
  - intros key. destruct (getRealType value =? key) eqn:E.
    + apply String.eqb_eq in E. subst key. rewrite get_put_eq. f_equal. lia.
    + apply String.eqb_neq in E. now apply get_put_ne.
  - rewrite <- (length_map fst (put _ _ _)), keys_put.
    destruct (get map (getRealType value)).
    + now rewrite length_map.
    + rewrite length_app, length_map. simpl. lia.
Qed.

(** X5: [allItemsHaveTheSameType] accepts exactly the arrays that have an
    item and whose items all have one [typeof]. *)
Theorem allItemsHaveTheSameType_iff (arr : list value) :
  allItemsHaveTheSameType arr = true <->
  arr <> [] /\ forall x y, In x arr -> In y arr -> typeof x = typeof y.
Proof. exact (allItemsHaveTheSameType_spec arr). Qed.

(** X9: the output of [countRealTypes] has one entry per tag that occurs
    among the items, with the number of items that have the tag; no tag is
    listed twice and none with a count of zero; the empty array gives the
    empty output. *)
Theorem countRealTypes_exact (arr : list value) :
  List.NoDup (List.map fst (countRealTypes arr))
  /\ (forall tag n,
        In (tag, n) (countRealTypes arr) <->
        n = count_occ string_dec (getRealTypesOfItems arr) tag /\ 1 <= n)
  /\ (forall tag,
        In tag (List.map fst (countRealTypes arr)) <->
        In tag (getRealTypesOfItems arr))
  /\ countRealTypes [] = [].
Proof.
  split; [apply countRealTypes_NoDup|]. split; [apply countRealTypes_entry|].
  split; [apply countRealTypes_keys | reflexivity].
Qed.

(** ** More on equality *)

Lemma SFeqb_true (x y : spec_float) :
  SFeqb x y = true ->
  match x, y with
  | S754_zero _, S754_zero _ => True
  | S754_infinity s, S754_infinity s' => s = s'
  | S754_finite _ _ _, S754_finite _ _ _ => x = y
  | _, _ => False
  end.
Proof.
  unfold SFeqb.
  destruct x as [s|s| |s m e], y as [s'|s'| |s' m' e']; simpl; try discriminate;
    try (destruct s; discriminate); try (destruct s'; discriminate); trivial.
  - destruct s, s'; try discriminate; reflexivity.
  - destruct s, s'; try discriminate;
      destruct (e ?= e')%Z eqn:Ee; try discriminate;
      change (Pos.compare_cont Eq m m') with (m ?= m')%positive;
      destruct (m ?= m')%positive eqn:Em; try discriminate; intros _;
      apply Z.compare_eq in Ee; apply Pos.compare_eq in Em; now subst.
Qed.

Lemma SFeqb_trans (x y z : spec_float) :
  SFeqb x y = true -> SFeqb y z = true -> SFeqb x z = true.
Proof.
  intros Hxy Hyz. pose proof (SFeqb_true x y Hxy) as H1.
  pose proof (SFeqb_true y z Hyz) as H2.
  destruct x, y; try contradiction; destruct z; try contradiction;
    subst; try reflexivity; try exact Hxy; try exact Hyz.
  inversion H1; subst. exact Hyz.
Qed.

Lemma strict_eq_trans (a b c : value) :
  strict_eq a b = true -> strict_eq b c = true -> strict_eq a c = true.
Proof.
  destruct a, b; simpl; try discriminate; destruct c; simpl; try discriminate;
    trivial.
  - intros H1 H2. apply eqb_prop in H1, H2. subst. apply eqb_reflx.
  - apply SFeqb_trans.
  - rewrite !Z.eqb_eq. congruence.
  - rewrite !String.eqb_eq. congruence.
  - rewrite !Nat.eqb_eq. congruence.
  - rewrite !Nat.eqb_eq. congruence.
  - rewrite !Nat.eqb_eq. congruence.
Qed.

Lemma strict_eq_kind (a b : value) :
  strict_eq a b = true -> Array_isArray a = Array_isArray b.
Proof. destruct a, b; simpl; try discriminate; reflexivity. Qed.

Lemma Ts_areEqual_kind (a b : value) :
  Ts.areEqual a b = true -> Array_isArray a = Array_isArray b.
Proof.
  destruct (Array_isArray a && Array_isArray b) eqn:E.
  - apply andb_true_iff in E as [-> ->]. reflexivity.
  - rewrite (Ts_areEqual_flat a b E). apply strict_eq_kind.
Qed.

Lemma Ts_areEqual_trans (a b c : value) :
  Ts.areEqual a b = true -> Ts.areEqual b c = true -> Ts.areEqual a c = true.
Proof.
  revert b c. induction a as [a Ha|i p xs IH] using value_nested_ind;
    intros b c Hab Hbc.
  - pose proof (Ts_areEqual_kind a b Hab) as Kb.
    pose proof (Ts_areEqual_kind b c Hbc) as Kc.
    rewrite Ha in Kb. rewrite <- Kb in Kc.
    rewrite Ts_areEqual_flat in * by (rewrite ?Ha, <- ?Kb, <- ?Kc; reflexivity).
    now apply (strict_eq_trans a b c).
  - pose proof (Ts_areEqual_kind _ _ Hab) as Kb.
    destruct b as [ | | | | | | | |j q ys]; try discriminate Kb.
    pose proof (Ts_areEqual_kind _ _ Hbc) as Kc.
    destruct c as [ | | | | | | | |k r zs]; try discriminate Kc.
    apply Ts_areEqual_arrays in Hab as [Lab Hab], Hbc as [Lbc Hbc].
    apply Ts_areEqual_arrays. split; [congruence|].
    intros n x z Hx Hz.
    destruct (ys !! n) as [y|] eqn:Hy.
    + rewrite List.Forall_forall in IH.
      apply (IH x) with (b := y); eauto.
      apply list_elem_of_In. now apply list_elem_of_lookup_2 in Hx.
    + apply lookup_ge_None in Hy. apply lookup_lt_Some in Hx. lia.
Qed.

(** X11: the TypeScript [areEqual] is transitive; with its symmetry that
    makes it an equivalence on the values that hold no NaN. *)
Theorem Ts_areEqual_transitive (a b c : value) :
  Ts.areEqual a b = true -> Ts.areEqual b c = true -> Ts.areEqual a c = true.
Proof. exact (Ts_areEqual_trans a b c). Qed.

Lemma Ts_areEqual_transitive_witness :
  Ts.areEqual (array_literal 1 [num 0; VString "a"])
              (array_literal 2 [VNumber (S754_zero true); VString "a"]) = true
  /\ Ts.areEqual (array_literal 2 [VNumber (S754_zero true); VString "a"])
                 (array_literal 3 [num 0; VString "a"]) = true
  /\ Ts.areEqual (array_literal 1 [num 0; VString "a"])
                 (array_literal 3 [num 0; VString "a"]) = true.
Proof.
  split; [reflexivity|]. split; [reflexivity|].
  apply (Ts_areEqual_transitive _
           (array_literal 2 [VNumber (S754_zero true); VString "a"]));
    reflexivity.
Defined.

(** X12: an array is never equal to a value that is not an array, in either
    part of the source and in either order of the operands. *)
Theorem areEqual_mixed (a b : value) :
  Array_isArray a = true -> Array_isArray b = false ->
  Ts.areEqual a b = false /\ Ts.areEqual b a = false
  /\ Js.areEqual a b = Some false /\ Js.areEqual b a = Some false.
Proof.
  intros Ha Hb.
  destruct a as [ | | | | | | | |i p xs]; try discriminate Ha.
  destruct b; try discriminate Hb; repeat split; reflexivity.
Qed.

Lemma areEqual_mixed_witness :
  Array_isArray (array_literal 1 []) = true
  /\ Array_isArray (object_literal 1) = false
  /\ Ts.areEqual (array_literal 1 []) (object_literal 1) = false.
Proof.
  split; [reflexivity|]. split; [reflexivity|].
  exact (proj1 (areEqual_mixed (array_literal 1 []) (object_literal 1)
                  eq_refl eq_refl)).
Defined.



Lemma join_with_cons (element : value -> option string) (x : value) (rest : list value) :
  Js.join_with element (x :: rest) =
    match rest with
    | [] => element x
    | _ :: _ =>
        match element x, Js.join_with element rest with
        | Some s, Some r => Some (s ++ "," ++ r)
        | _, _ => None
        end
    end.
Proof. reflexivity. Qed.





(** [join] on strings is [String.concat]. *)
Lemma join_strings (texts : list string) :
  Js.join (List.map VString texts) = Some (String.concat "," texts).
Proof.
  unfold Js.join. induction texts as [|s texts IH]; [reflexivity|].
  simpl List.map. rewrite join_with_cons, IH.
  destruct texts; reflexivity.
Qed.

Lemma each_index_strings (l l' : list string) :
  length l = length l' ->
  each_index Ts.areEqual (List.map VString l) (List.map VString l') = true <->
  l = l'.
Proof.
  revert l'. induction l as [|s l IH]; intros [|s' l'] Hlen;
    try discriminate Hlen; [tauto|].
  injection Hlen as Hlen. simpl.
  destruct (s =? s') eqn:E; simpl.
  - apply String.eqb_eq in E. subst s'. rewrite (IH l' Hlen).
    split; congruence.
  - apply String.eqb_neq in E. split; [discriminate | congruence].
Qed.

(** X14: on two arrays of strings, as [getTypesOfItems] and
    [getRealTypesOfItems] return them, the TypeScript [areEqual] holds
    exactly when the two lists of strings are the same, and the JavaScript
    [areEqual] compares the two lists joined with commas. *)
Theorem areEqual_strings (a b : nat) (l l' : list string) :
  (Ts.areEqual (strings a l) (strings b l') = true <-> l = l')
  /\ Js.areEqual (strings a l) (strings b l')
     = Some (String.concat "," l =? String.concat "," l').
Proof.
  split.
  - unfold strings, array_literal. rewrite Ts_areEqual_array, !length_map.
    destruct (length l =? length l')%nat eqn:L; simpl.
    + apply Nat.eqb_eq in L. now apply each_index_strings.
    + apply Nat.eqb_neq in L. split; [discriminate | congruence].
  - unfold strings, array_literal, Js.areEqual. now rewrite !join_strings.
Qed.



Lemma each_index_Forall2 (f : value -> value -> bool) (xs ys : list value) :
  length xs = length ys ->
  each_index f xs ys = true <-> Forall2 (fun x y => f x y = true) xs ys.
Proof.
  revert ys. induction xs as [|x xs IH]; intros [|y ys] Hlen;
    try discriminate Hlen; simpl.
  - split; [constructor | reflexivity].
  - injection Hlen as Hlen. destruct (f x y) eqn:E; simpl.
    + rewrite (IH ys Hlen). split.
      * now constructor.
      * intros H. now inversion H.
    + split; [discriminate|]. intros H. inversion H. congruence.
Qed.

(** X17: on two arrays the TypeScript [areEqual] holds exactly when the
    elements are equal pair by pair, which takes the two lengths to be the
    same; neither the identity of the arrays nor what they inherit from
    matters. *)
Theorem Ts_areEqual_elementwise a p (xs : list value) b q (ys : list value) :
  Ts.areEqual (VArray a p xs) (VArray b q ys) = true <->
  Forall2 (fun x y => Ts.areEqual x y = true) xs ys.
Proof.
  rewrite Ts_areEqual_array.
  destruct (length xs =? length ys)%nat eqn:L; simpl.
  - apply Nat.eqb_eq in L. now apply each_index_Forall2.
  - apply Nat.eqb_neq in L. split; [discriminate|].
    intros H. apply Forall2_length in H. contradiction.
Qed.
